(** * cart_maker: building an Atari 2600 cartridge image from raw opcodes

    A shallow embedding of [cart_maker.py].  The script stitches four chunks
    of 6502 machine code together, pads the result to the cartridge size,
    pokes the reset vector near the end of the image, writes the image to a
    file and prints a short report.

    Python integers are unbounded, so they are modelled as [Z].  A
    [bytearray] is a [list Z] whose elements were checked to lie in
    [range(0, 256)] when it was built; the operations that Python lets raise
    ([bytearray(...)] and item assignment) return a [result]. *)

From Stdlib Require Import ZArith Lia Ascii.
From stdpp Require Import gmap strings list pretty.

Local Open Scope Z_scope.

(** ** The fragment of Python the script relies on *)

Module Py.

(** The two exceptions the byte operations of the script can raise. *)
Inductive exn : Type :=
| ValueError   (* byte must be in range(0, 256) *)
| IndexError.  (* bytearray index out of range *)

Inductive result (A : Type) : Type :=
| Ok (a : A)
| Raise (e : exn).

Arguments Ok {A} a.
Arguments Raise {A} e.

Definition bind {A B : Type} (m : result A) (k : A -> result B) : result B :=
  match m with
  | Ok a => k a
  | Raise e => Raise e
  end.

(** [len(x)] as a Python integer. *)
Definition len {A : Type} (l : list A) : Z := Z.of_nat (length l).

(** [0 <= v < 256]: what a [bytearray] accepts as an element. *)
Definition is_byte (v : Z) : bool := (0 <=? v) && (v <? 256).

(** [bytearray(l)] for a list of integers [l]. *)
Definition bytearray (l : list Z) : result (list Z) :=
  if forallb is_byte l then Ok l else Raise ValueError.

(** [l * n]: list repetition; a count of zero or less gives [[]]. *)
Definition list_mul {A : Type} (l : list A) (n : Z) : list A :=
  concat (replicate (Z.to_nat n) l).

(** An index as Python resolves it: a negative one counts from the end. *)
Definition norm_index (size i : Z) : Z := if i <? 0 then i + size else i.

(** [b[i] = v] on a bytearray.  The value is converted to a byte before
    the index is checked against the size; the order only decides which
    exception is seen when both checks fail. *)
Definition setitem (b : list Z) (i v : Z) : result (list Z) :=
  if is_byte v then
    let j := norm_index (len b) i in
    if (j <? 0) || (len b <=? j) then Raise IndexError
    else Ok (<[Z.to_nat j := v]> b)
  else Raise ValueError.

(** [b[i]] on a bytearray. *)
Definition getitem (b : list Z) (i : Z) : result Z :=
  let j := norm_index (len b) i in
  if (j <? 0) || (len b <=? j) then Raise IndexError
  else match b !! Z.to_nat j with
       | Some v => Ok v
       | None => Raise IndexError
       end.

(** [str(n)] for an integer [n]. *)
Definition str (n : Z) : string := pretty n.

Definition hex_digit (d : N) : ascii :=
  match d with
  | 0%N => "0" | 1%N => "1" | 2%N => "2" | 3%N => "3"
  | 4%N => "4" | 5%N => "5" | 6%N => "6" | 7%N => "7"
  | 8%N => "8" | 9%N => "9" | 10%N => "A" | 11%N => "B"
  | 12%N => "C" | 13%N => "D" | 14%N => "E" | _ => "F"
  end%char.

Fixpoint hex_go (fuel : nat) (n : N) (acc : string) : string :=
  let acc' := String (hex_digit (n mod 16)) acc in
  match fuel with
  | O => acc'
  | S fuel' => if (n / 16 =? 0)%N then acc' else hex_go fuel' (n / 16)%N acc'
  end.

(** [f"{n:X}"]: upper-case hexadecimal, with a sign for negative [n]. *)
Definition format_X (n : Z) : string :=
  let digits := hex_go (N.size_nat (Z.abs_N n)) (Z.abs_N n) "" in
  if n <? 0 then String "-"%char digits else digits.

End Py.

Import Py.

(** [x ← m; k] runs [m] and, unless it raised, goes on with [k]. *)
#[global] Instance result_bind : MBind result := fun A B k m => bind m k.
#[global] Instance result_ret : MRet result := @Ok.

(** ** Set-up *)

(** Least and most significant bytes of a two-byte address. *)
Definition lsb (word : Z) : Z := Z.land word 0x00FF.

Definition msb (word : Z) : Z := Z.shiftr word 8.

(** The module-level settings of the script. *)
Record config : Type := Config {
  rom_size : Z;       (* rom size in bytes (valid values are 2k or 4k) *)
  pad_byte : Z;
  file_name : string
}.

(** The settings the script is shipped with. *)
Definition rainbows : config :=
  {| rom_size := 2 * 1024; pad_byte := 0; file_name := "rainbows.bin" |}.

(** "Valid values are 2k or 4k". *)
Definition valid_rom_size (n : Z) : Prop := n = 2 * 1024 \/ n = 4 * 1024.

(** Address of the first byte of the file as the console sees it in the
    top-most mirror of the cartridge. *)
Definition reset_vector (c : config) : Z := 0xFFFF - rom_size c + 1.

(** ** The machine code *)

(** Initialization routine. *)
Definition init_tia : result (list Z) :=
  bytearray [
    0x78;               (* SEI *)
    0xD8;               (* CLD *)
    0xA2; 0xFF;         (* LDX #$FF *)
    0x9A;               (* TXS *)
    0xA9; 0x00;         (* LDA #0 *)
    0xE8;               (* INX *)
    0xA8;               (* TAY *)
    0x95; 0x00;         (* STA $00,X *)
    0xCA;               (* DEX *)
    0xD0; 0xFB          (* BNE -5 *)
  ].

(** Vertical blank routine. *)
Definition vblank : result (list Z) :=
  bytearray [
    0xA9; 0x02;         (* LDA #2 *)
    0x85; 0x01;         (* STA VBLANK *)
    0x85; 0x00;         (* STA VSYNC *)
    0x85; 0x02;         (* STA WSYNC *)
    0x85; 0x02;         (* STA WSYNC *)
    0x85; 0x02;         (* STA WSYNC *)
    0xA9; 0x00;         (* LDA #0 *)
    0x85; 0x00;         (* STA VSYNC *)
    0xA2; 0x25;         (* LDX #37 *)
    0x85; 0x02;         (* STA WSYNC *)
    0xCA;               (* DEX *)
    0xD0; 0xFB;         (* BNE -5 *)
    0x85; 0x01          (* STA VBLANK *)
  ].

(** Visible area of the frame. *)
Definition viz_area : result (list Z) :=
  bytearray [
    0xA2; 0xC0;         (* LDX #192 *)
    0xA4; 0x80;         (* LDY $80 *)
    0x84; 0x09;         (* STY COLUBK *)
    0xC8;               (* INY *)
    0xC8;               (* INY *)
    0x85; 0x02;         (* STA WSYNC *)
    0xCA;               (* DEX *)
    0xD0; 0xF7          (* BNE -9 *)
  ].

(** Address of the entry point of the main loop; [init_tia_] is the
    initialization chunk already built. *)
Definition looptop (c : config) (init_tia_ : list Z) : Z :=
  0xFFFF - rom_size c + len init_tia_ + 5.

(** Overscan routine, ending in the jump back to [looptop_]. *)
Definition overscan (looptop_ : Z) : result (list Z) :=
  bytearray [
    0xA9; 0x02;         (* LDA #2 *)
    0x85; 0x01;         (* STA VBLANK *)
    0xA2; 0x1C;         (* LDX #28 *)
    0x85; 0x02;         (* STA WSYNC *)
    0xCA;               (* DEX *)
    0xD0; 0xFB;         (* BNE -5 *)
    0xA5; 0x80;         (* LDA $80 *)
    0x38;               (* SEC *)
    0xE9; 0x04;         (* SBC *)
    0x85; 0x02;         (* STA WSYNC *)
    0x85; 0x80;         (* STA $80 *)
    0xA9; 0x02;         (* LDA #2 *)
    0x85; 0x02;         (* STA WSYNC *)
    0x4C; lsb looptop_; (* JMP, low byte of the target first *)
          msb looptop_
  ].

(** ** ROM binary build *)

(** "Just stitch the code chunks together": [a + b + c + ...]. *)
Definition stitch (chunks : list (list Z)) : list Z := concat chunks.

Definition code_length (chunks : list (list Z)) : Z := len (stitch chunks).

Definition num_pad_bytes (c : config) (chunks : list (list Z)) : Z :=
  rom_size c - code_length chunks.

(** The stitched code followed by the filler, before the reset vector is
    poked in. *)
Definition padded (c : config) (chunks : list (list Z)) : result (list Z) :=
  let rom := stitch chunks in
  filler ← bytearray (list_mul [pad_byte c] (num_pad_bytes c chunks));
  Ok (rom ++ filler).

(** What [padded] returns when the filler can be built. *)
Definition unpatched (c : config) (chunks : list (list Z)) : list Z :=
  stitch chunks ++ replicate (Z.to_nat (num_pad_bytes c chunks)) (pad_byte c).

(** The build section of the script for arbitrary code chunks: stitch, pad,
    then poke the reset vector into [rom_size - 5] and [rom_size - 3]. *)
Definition rom_build (c : config) (chunks : list (list Z)) : result (list Z) :=
  rom ← padded c chunks;
  rom ← setitem rom (rom_size c - 5) (lsb (reset_vector c));
  rom ← setitem rom (rom_size c - 3) (msb (reset_vector c));
  Ok rom.

(** The four chunks of the script, in stitching order. *)
Definition chunks_of (c : config) : result (list (list Z)) :=
  init_tia_ ← init_tia;
  vblank_ ← vblank;
  viz_area_ ← viz_area;
  overscan_ ← overscan (looptop c init_tia_);
  Ok [init_tia_; vblank_; viz_area_; overscan_].

(** The image the script computes. *)
Definition rom (c : config) : result (list Z) :=
  chunks ← chunks_of c;
  rom_build c chunks.

(** ** Output *)

(** What the script can touch outside itself: the files on disk and the
    lines printed so far. *)
Record world : Type := World {
  files : gmap string (list Z);
  stdout : list string
}.

(** [open(name, 'wb')] followed by [write(data)]: the file is created or
    truncated, then holds exactly [data]. *)
Definition write_file (name : string) (data : list Z) (w : world) : world :=
  {| files := <[name := data]> (files w); stdout := stdout w |}.

Definition print (line : string) (w : world) : world :=
  {| files := files w; stdout := stdout w ++ [line] |}.

(** The status report. *)
Definition report (c : config) (code_length_ : Z) (rom_ : list Z) (w : world)
  : world :=
  let w := print "" w in
  let w := print ("File " +:+ String "034"%char (file_name c)
                   +:+ String "034"%char " complete") w in
  let w := print (str code_length_ +:+ " bytes of program code") w in
  let w := print (str (len rom_) +:+ " total bytes on cartridge") w in
  let w := print ("Reset vector: " +:+ "0x" +:+ format_X (reset_vector c)) w in
  print "" w.

(** The build section followed by the output section, for arbitrary code
    chunks.  An exception raised while the image is computed ends the run
    before anything is written or printed. *)
Definition build_and_output (c : config) (chunks : list (list Z)) (w : world)
  : result world :=
  rom_ ← rom_build c chunks;
  Ok (report c (code_length chunks) rom_ (write_file (file_name c) rom_ w)).

(** The whole script, run in a world [w]. *)
Definition cart_maker (c : config) (w : world) : result world :=
  chunks ← chunks_of c;
  build_and_output c chunks w.

(** ** Auxiliary definitions for stating the properties *)

(** The value a computation returned, or [d] when it raised. *)
Definition get_or {A : Type} (d : A) (r : result A) : A :=
  match r with
  | Ok a => a
  | Raise _ => d
  end.

(** A world with no files in which nothing has been printed yet. *)
Definition fresh : world := {| files := ∅; stdout := [] |}.

(** A single chunk of [n] NOP instructions. *)
Definition nops (n : nat) : list (list Z) := [replicate n 0xEA].

(** The configuration [c] with another ROM size. *)
Definition with_rom_size (c : config) (n : Z) : config :=
  {| rom_size := n; pad_byte := pad_byte c; file_name := file_name c |}.

(** The little-endian word held at offsets [pos] and [pos + 1]. *)
Definition word_at (image : list Z) (pos : Z) : option Z :=
  match image !! Z.to_nat pos, image !! Z.to_nat (pos + 1) with
  | Some lo, Some hi => Some (hi * 256 + lo)
  | _, _ => None
  end.

(** The chunks the script stitches, as values: the three constant chunks
    and the overscan chunk with its jump to [looptop]. *)
Definition script_chunks (c : config) : list (list Z) :=
  let init := get_or [] init_tia in
  [init; get_or [] vblank; get_or [] viz_area;
   take 25 (get_or [] (overscan 0))
     ++ [lsb (looptop c init); msb (looptop c init)]].

(** The operand of a 6502 relative branch is a signed byte ([0xFB] is the
    [-5] and [0xF7] the [-9] of the comments). *)
Definition signed_byte (b : Z) : Z := if b <? 0x80 then b else b - 0x100.

(** Where the two-byte branch at offset [pos] of [code] goes when taken:
    the operand counts from the byte after the branch. *)
Definition branch_target (code : list Z) (pos : Z) : option Z :=
  match code !! Z.to_nat (pos + 1) with
  | Some operand => Some (pos + 2 + signed_byte operand)
  | None => None
  end.

(** The value of a hexadecimal digit, upper case only: the characters
    from code 48 on are the decimal digits, those from code 65 on the
    letters. *)
Definition hex_digit_value (a : ascii) : option N :=
  let code := N_of_ascii a in
  if ((48 <=? code) && (code <=? 57))%N then Some (code - 48)%N
  else if ((65 <=? code) && (code <=? 70))%N then Some (code - 55)%N
  else None.

(** Reading an unsigned hexadecimal numeral, most significant digit first,
    on top of the value [acc] read so far. *)
Fixpoint hex_value (s : string) (acc : N) : option N :=
  match s with
  | EmptyString => Some acc
  | String a s' =>
      match hex_digit_value a with
      | Some d => hex_value s' (acc * 16 + d)%N
      | None => None
      end
  end.

(** [code] has a [BNE] (opcode 0xD0) at offset [pos] which, when taken,
    goes to offset [target], where an instruction with opcode [opcode]
    starts. *)
Definition branches_to (code : list Z) (pos target opcode : Z) : Prop :=
  code !! Z.to_nat pos = Some 0xD0 /\
  branch_target code pos = Some target /\
  code !! Z.to_nat target = Some opcode.

(** * Properties *)

(** ** Address bytes *)

Lemma lsb_mod (word : Z) : lsb word = word mod 256.
Proof.
  unfold lsb. change 0x00FF with (Z.ones 8).
  rewrite Z.land_ones by lia. reflexivity.
Qed.

Lemma msb_div (word : Z) : msb word = word / 256.
Proof.
  unfold msb. rewrite Z.shiftr_div_pow2 by lia. reflexivity.
Qed.

Lemma is_byte_spec (v : Z) : is_byte v = true <-> 0 <= v <= 255.
Proof. unfold is_byte. rewrite andb_true_iff, Z.leb_le, Z.ltb_lt. lia. Qed.

Lemma is_byte_lsb (word : Z) : is_byte (lsb word) = true.
Proof.
  apply is_byte_spec. rewrite lsb_mod.
  pose proof (Z.mod_pos_bound word 256). lia.
Qed.

Lemma is_byte_msb (word : Z) : is_byte (msb word) = true <-> 0 <= word <= 0xFFFF.
Proof.
  rewrite is_byte_spec, msb_div. split; intros H.
  - pose proof (Z.div_mod word 256). pose proof (Z.mod_pos_bound word 256). lia.
  - split.
    + apply Z.div_pos; lia.
    + assert (word / 256 < 256); [apply Z.div_lt_upper_bound|]; lia.
Qed.

(** ** Lengths *)

Lemma len_nonneg {A : Type} (l : list A) : 0 <= len l.
Proof. unfold len. lia. Qed.

Lemma len_app {A : Type} (l k : list A) : len (l ++ k) = len l + len k.
Proof. unfold len. rewrite length_app. lia. Qed.

Lemma len_insert {A : Type} (l : list A) (i : nat) (x : A) :
  len (<[i := x]> l) = len l.
Proof. unfold len. rewrite length_insert. reflexivity. Qed.

Lemma list_mul_singleton {A : Type} (x : A) (n : Z) :
  list_mul [x] n = replicate (Z.to_nat n) x.
Proof.
  unfold list_mul. induction (Z.to_nat n) as [|k IH]; simpl; [reflexivity|].
  rewrite IH. reflexivity.
Qed.

Lemma len_replicate {A : Type} (x : A) (n : Z) :
  len (replicate (Z.to_nat n) x) = Z.max 0 n.
Proof. unfold len. rewrite length_replicate. lia. Qed.

(** ** The byte operations *)

Lemma bytearray_Ok (l b : list Z) :
  bytearray l = Ok b <-> b = l /\ Forall (fun v => 0 <= v <= 255) l.
Proof.
  unfold bytearray. destruct (forallb is_byte l) eqn:E.
  - split.
    + intros [= <-]. split; [reflexivity|].
      apply Forall_forall. intros v Hv. apply is_byte_spec.
      rewrite forallb_forall in E. apply E. apply list_elem_of_In, Hv.
    + intros [-> _]. reflexivity.
  - split; [discriminate|]. intros [_ H]. exfalso.
    assert (forallb is_byte l = true); [|congruence].
    apply forallb_forall. intros v Hv. apply is_byte_spec.
    rewrite Forall_forall in H. apply H. apply list_elem_of_In, Hv.
Qed.

Lemma bytearray_filler (x : Z) (n : Z) :
  bytearray (list_mul [x] n) = Ok (replicate (Z.to_nat n) x)
  <-> (0 < n -> 0 <= x <= 255).
Proof.
  rewrite list_mul_singleton, bytearray_Ok. split.
  - intros [_ H] Hn. destruct (Z.to_nat n) as [|k] eqn:E; [lia|].
    simpl in H. inversion H; assumption.
  - intros H. split; [reflexivity|].
    destruct (Z.to_nat n) as [|k] eqn:E; [constructor|].
    apply Forall_replicate. apply H. lia.
Qed.

Lemma setitem_Ok (b b' : list Z) (i v : Z) :
  setitem b i v = Ok b' <->
  0 <= v <= 255 /\ 0 <= norm_index (len b) i < len b /\
  b' = <[Z.to_nat (norm_index (len b) i) := v]> b.
Proof.
  unfold setitem. destruct (is_byte v) eqn:Ev.
  - apply is_byte_spec in Ev. cbv zeta.
    destruct ((norm_index (len b) i <? 0) || (len b <=? norm_index (len b) i)) eqn:E.
    + split; [discriminate|]. intros (_ & H & _).
      apply orb_true_iff in E. rewrite Z.ltb_lt, Z.leb_le in E. lia.
    + apply orb_false_iff in E. rewrite Z.ltb_ge, Z.leb_gt in E.
      split; [intros [= <-]|intros (_ & _ & ->)]; auto.
  - split; [discriminate|]. intros (H & _). apply is_byte_spec in H. congruence.
Qed.

Lemma getitem_Ok (b : list Z) (i v : Z) :
  getitem b i = Ok v <->
  0 <= norm_index (len b) i /\ b !! Z.to_nat (norm_index (len b) i) = Some v.
Proof.
  unfold getitem. cbv zeta.
  destruct ((norm_index (len b) i <? 0) || (len b <=? norm_index (len b) i)) eqn:E.
  - split; [discriminate|]. intros [H1 H2]. apply lookup_lt_Some in H2.
    apply orb_true_iff in E. rewrite Z.ltb_lt, Z.leb_le in E. unfold len in *. lia.
  - apply orb_false_iff in E. rewrite Z.ltb_ge, Z.leb_gt in E.
    destruct (b !! Z.to_nat (norm_index (len b) i)) as [x|] eqn:Ex.
    + split; [intros [= <-]; split; [lia|reflexivity]|].
      intros [_ [= <-]]. reflexivity.
    + split; [discriminate|]. intros [_ ?]. discriminate.
Qed.

(** ** The build section *)

Lemma result_bind_Ok {A B : Type} (m : result A) (k : A -> result B) (b : B) :
  (x ← m; k x) = Ok b <-> exists a, m = Ok a /\ k a = Ok b.
Proof.
  unfold mbind, result_bind, bind. destruct m as [a|e].
  - split; [eauto|]. intros (a' & [= <-] & H). exact H.
  - split; [discriminate|]. intros (a' & [=] & _).
Qed.

Lemma padded_Ok (c : config) (chunks : list (list Z)) (r : list Z) :
  padded c chunks = Ok r <->
  r = unpatched c chunks /\ (0 < num_pad_bytes c chunks -> 0 <= pad_byte c <= 255).
Proof.
  unfold padded. cbv zeta. rewrite result_bind_Ok. split.
  - intros (filler & Hf & [= <-]).
    pose proof Hf as Hf'. rewrite list_mul_singleton in Hf'.
    apply bytearray_Ok in Hf' as [-> _].
    split; [reflexivity|]. rewrite <- bytearray_filler. exact Hf.
  - intros [-> H]. apply bytearray_filler in H. eauto.
Qed.

Lemma len_unpatched (c : config) (chunks : list (list Z)) :
  len (unpatched c chunks) = Z.max (code_length chunks) (rom_size c).
Proof.
  unfold unpatched. rewrite len_app, len_replicate.
  unfold num_pad_bytes, code_length. lia.
Qed.

(** When and what the build section returns. *)
Lemma rom_build_Ok (c : config) (chunks : list (list Z)) (image : list Z) :
  rom_build c chunks = Ok image <->
  let base := unpatched c chunks in
  let j1 := norm_index (len base) (rom_size c - 5) in
  let j2 := norm_index (len base) (rom_size c - 3) in
  (0 < num_pad_bytes c chunks -> 0 <= pad_byte c <= 255) /\
  0 <= reset_vector c <= 0xFFFF /\
  0 <= j1 < len base /\ 0 <= j2 < len base /\
  image = <[Z.to_nat j2 := msb (reset_vector c)]>
            (<[Z.to_nat j1 := lsb (reset_vector c)]> base).
Proof.
  cbv zeta. unfold rom_build. rewrite result_bind_Ok. split.
  - intros (r0 & H0 & H). apply padded_Ok in H0 as [-> Hpad].
    apply result_bind_Ok in H as (r1 & H1 & H).
    apply result_bind_Ok in H as (r2 & H2 & [= <-]).
    apply setitem_Ok in H1 as (_ & Hj1 & ->).
    apply setitem_Ok in H2 as (Hm & Hj2 & ->).
    rewrite len_insert in Hj2 |- *.
    apply is_byte_spec, is_byte_msb in Hm. auto.
  - intros (Hpad & Hrv & Hj1 & Hj2 & ->).
    exists (unpatched c chunks). split; [apply padded_Ok; auto|].
    apply result_bind_Ok. eexists. split.
    + apply setitem_Ok. split; [apply is_byte_spec, is_byte_lsb|]. eauto.
    + apply result_bind_Ok. eexists. split; [|reflexivity].
      apply setitem_Ok. rewrite len_insert.
      split; [apply is_byte_spec, is_byte_msb; exact Hrv|]. eauto.
Qed.

Lemma len_rom_build (c : config) (chunks : list (list Z)) (image : list Z) :
  rom_build c chunks = Ok image ->
  len image = Z.max (code_length chunks) (rom_size c).
Proof.
  intros H. apply rom_build_Ok in H as (_ & _ & _ & _ & ->).
  rewrite !len_insert. apply len_unpatched.
Qed.

(** The two pokes never land on the same byte. *)
Lemma poke_indices_apart (c : config) (chunks : list (list Z)) :
  let size := len (unpatched c chunks) in
  0 <= norm_index size (rom_size c - 5) ->
  norm_index size (rom_size c - 5) <> norm_index size (rom_size c - 3).
Proof.
  cbv zeta. rewrite len_unpatched. unfold norm_index.
  pose proof (len_nonneg (stitch chunks)). unfold code_length.
  destruct (rom_size c - 5 <? 0) eqn:E1; destruct (rom_size c - 3 <? 0) eqn:E2;
    rewrite ?Z.ltb_lt, ?Z.ltb_ge in *; lia.
Qed.

(** With at least five bytes of ROM that are not outgrown by the code, the
    pokes go to [rom_size - 5] and [rom_size - 3] as written. *)
Lemma rom_build_fits (c : config) (chunks : list (list Z)) :
  5 <= rom_size c <= 0x10000 ->
  (0 < num_pad_bytes c chunks -> 0 <= pad_byte c <= 255) ->
  rom_build c chunks =
    Ok (<[Z.to_nat (rom_size c - 3) := msb (reset_vector c)]>
          (<[Z.to_nat (rom_size c - 5) := lsb (reset_vector c)]>
             (unpatched c chunks))).
Proof.
  intros Hsize Hpad. apply rom_build_Ok. cbv zeta.
  rewrite len_unpatched. unfold norm_index.
  destruct (rom_size c - 5 <? 0) eqn:E1; [apply Z.ltb_lt in E1; lia|].
  destruct (rom_size c - 3 <? 0) eqn:E2; [apply Z.ltb_lt in E2; lia|].
  unfold reset_vector. repeat split; auto; lia.
Qed.

(** ** Size of the image *)

(** C3: for every valid [rom_size] (2k or 4k) and every list of chunks
    whose stitched length is at most [rom_size], the build succeeds and the
    image has exactly [rom_size] bytes: the stitched code is followed by
    [rom_size - code_length] copies of [pad_byte] before the reset vector is
    poked in, and the pokes do not change the length. *)
Theorem rom_build_length (c : config) (chunks : list (list Z)) :
  valid_rom_size (rom_size c) ->
  0 <= pad_byte c <= 255 ->
  code_length chunks <= rom_size c ->
  exists image,
    rom_build c chunks = Ok image /\ len image = rom_size c /\
    padded c chunks =
      Ok (stitch chunks
          ++ replicate (Z.to_nat (rom_size c - code_length chunks)) (pad_byte c)).
Proof.
  intros Hvalid Hpad Hfit.
  assert (5 <= rom_size c <= 0x10000) as Hsize by (destruct Hvalid; lia).
  eexists. split; [apply rom_build_fits; auto|].
  split.
  - rewrite !len_insert, len_unpatched. lia.
  - apply padded_Ok. split; [reflexivity|auto].
Qed.

Lemma rom_build_length_witness :
  exists image,
    rom_build rainbows (get_or [] (chunks_of rainbows)) = Ok image /\
    len image = rom_size rainbows /\
    padded rainbows (get_or [] (chunks_of rainbows)) =
      Ok (stitch (get_or [] (chunks_of rainbows))
          ++ replicate
               (Z.to_nat (rom_size rainbows
                          - code_length (get_or [] (chunks_of rainbows))))
               (pad_byte rainbows)).
Proof.
  apply (rom_build_length rainbows (get_or [] (chunks_of rainbows))).
  - left. reflexivity.
  - simpl. lia.
  - vm_compute. discriminate.
Defined.

(** ** The reset vector *)

(** C4: in every image the build returns, the byte at [rom_size - 5] is the
    low byte and the byte at [rom_size - 3] is the high byte of
    [0xFFFF - rom_size + 1], the address of byte 0 of the image in the
    top-most mirror; the two bytes recombine to that address. *)
Theorem reset_vector_stored (c : config) (chunks : list (list Z)) (image : list Z) :
  rom_build c chunks = Ok image ->
  getitem image (rom_size c - 5) = Ok (lsb (reset_vector c)) /\
  getitem image (rom_size c - 3) = Ok (msb (reset_vector c)) /\
  msb (reset_vector c) * 256 + lsb (reset_vector c) = 0xFFFF - rom_size c + 1.
Proof.
  intros H. pose proof (len_rom_build _ _ _ H) as Hlen.
  rewrite <- len_unpatched in Hlen.
  apply rom_build_Ok in H as (_ & Hrv & Hj1 & Hj2 & ->). cbv zeta in *.
  pose proof (poke_indices_apart c chunks) as Hne. cbv zeta in Hne.
  specialize (Hne (proj1 Hj1)).
  set (base := unpatched c chunks) in *.
  set (j1 := norm_index (len base) (rom_size c - 5)) in *.
  set (j2 := norm_index (len base) (rom_size c - 3)) in *.
  repeat split.
  - apply getitem_Ok. rewrite Hlen. fold j1. split; [lia|].
    rewrite list_lookup_insert_ne by lia.
    apply list_lookup_insert_eq. unfold len in Hj1. lia.
  - apply getitem_Ok. rewrite Hlen. fold j2. split; [lia|].
    apply list_lookup_insert_eq. rewrite length_insert. unfold len in Hj2. lia.
  - rewrite msb_div, lsb_mod. unfold reset_vector.
    pose proof (Z.div_mod (0xFFFF - rom_size c + 1) 256). lia.
Qed.

Lemma reset_vector_stored_witness :
  getitem (get_or [] (rom rainbows)) (rom_size rainbows - 5)
    = Ok (lsb (reset_vector rainbows)) /\
  getitem (get_or [] (rom rainbows)) (rom_size rainbows - 3)
    = Ok (msb (reset_vector rainbows)) /\
  msb (reset_vector rainbows) * 256 + lsb (reset_vector rainbows)
    = 0xFFFF - rom_size rainbows + 1.
Proof.
  apply (reset_vector_stored rainbows (get_or [] (chunks_of rainbows))
                             (get_or [] (rom rainbows))).
  vm_compute. reflexivity.
Defined.

(** ** What the pokes leave alone *)

Lemma lookup_unpatched_code (c : config) (chunks : list (list Z)) (i : Z) :
  0 <= i < code_length chunks ->
  unpatched c chunks !! Z.to_nat i = stitch chunks !! Z.to_nat i.
Proof.
  intros Hi. unfold unpatched. apply lookup_app_l.
  unfold code_length, len in Hi. lia.
Qed.

Lemma lookup_unpatched_filler (c : config) (chunks : list (list Z)) (i : Z) :
  code_length chunks <= i < rom_size c ->
  unpatched c chunks !! Z.to_nat i = Some (pad_byte c).
Proof.
  intros Hi. unfold unpatched. unfold code_length, len in Hi.
  rewrite lookup_app_r by lia. apply lookup_replicate_2.
  unfold num_pad_bytes, code_length, len. lia.
Qed.

(** C8, amended: with at least five bytes of ROM and code that fits, the
    pokes change only the offsets [rom_size - 5] and [rom_size - 3].  Every
    other byte keeps its value from stitching and padding: below
    [code_length] it is the byte of the chunks, from [code_length] up to
    [rom_size] (offsets [rom_size - 4], [rom_size - 2] and [rom_size - 1]
    included) it is [pad_byte].  When the code ends at or before
    [rom_size - 5], the whole of it is found unmodified at the start of the
    image. *)
Theorem patch_frame (c : config) (chunks : list (list Z)) (image : list Z) :
  5 <= rom_size c ->
  code_length chunks <= rom_size c ->
  rom_build c chunks = Ok image ->
  (forall i : Z,
     0 <= i < rom_size c -> i <> rom_size c - 5 -> i <> rom_size c - 3 ->
     image !! Z.to_nat i = unpatched c chunks !! Z.to_nat i /\
     (i < code_length chunks -> image !! Z.to_nat i = stitch chunks !! Z.to_nat i) /\
     (code_length chunks <= i -> image !! Z.to_nat i = Some (pad_byte c))) /\
  (code_length chunks <= rom_size c - 5 ->
     take (Z.to_nat (code_length chunks)) image = stitch chunks).
Proof.
  intros Hsize Hfit H.
  apply rom_build_Ok in H as (_ & _ & _ & _ & ->). cbv zeta.
  rewrite len_unpatched. unfold norm_index.
  destruct (rom_size c - 5 <? 0) eqn:E1; [apply Z.ltb_lt in E1; lia|].
  destruct (rom_size c - 3 <? 0) eqn:E2; [apply Z.ltb_lt in E2; lia|].
  clear E1 E2. split.
  - intros i Hi H5 H3.
    assert (<[Z.to_nat (rom_size c - 3) := msb (reset_vector c)]>
              (<[Z.to_nat (rom_size c - 5) := lsb (reset_vector c)]>
                 (unpatched c chunks)) !! Z.to_nat i
            = unpatched c chunks !! Z.to_nat i) as ->.
    { rewrite !list_lookup_insert_ne by lia. reflexivity. }
    split; [reflexivity|]. split; intros Hi'.
    + apply lookup_unpatched_code. lia.
    + apply lookup_unpatched_filler. lia.
  - intros Hcode. pose proof (len_nonneg (stitch chunks)) as Hnn.
    fold (code_length chunks) in Hnn.
    rewrite !take_insert_ge by lia.
    unfold unpatched, code_length, len. rewrite Nat2Z.id.
    apply take_app_length.
Qed.

Lemma patch_frame_witness :
  (forall i : Z,
     0 <= i < rom_size rainbows ->
     i <> rom_size rainbows - 5 -> i <> rom_size rainbows - 3 ->
     get_or [] (rom rainbows) !! Z.to_nat i
       = unpatched rainbows (get_or [] (chunks_of rainbows)) !! Z.to_nat i /\
     (i < code_length (get_or [] (chunks_of rainbows)) ->
        get_or [] (rom rainbows) !! Z.to_nat i
          = stitch (get_or [] (chunks_of rainbows)) !! Z.to_nat i) /\
     (code_length (get_or [] (chunks_of rainbows)) <= i ->
        get_or [] (rom rainbows) !! Z.to_nat i = Some (pad_byte rainbows))) /\
  (code_length (get_or [] (chunks_of rainbows)) <= rom_size rainbows - 5 ->
     take (Z.to_nat (code_length (get_or [] (chunks_of rainbows))))
          (get_or [] (rom rainbows))
       = stitch (get_or [] (chunks_of rainbows))).
Proof.
  apply (patch_frame rainbows (get_or [] (chunks_of rainbows))
                     (get_or [] (rom rainbows))).
  - vm_compute. discriminate.
  - vm_compute. discriminate.
  - vm_compute. reflexivity.
Defined.

(** C8 as stated fails: code may fit in the ROM and still reach the poked
    offsets.  With 2048 bytes of NOPs in a 2k ROM the build succeeds and the
    byte at offset 2045, inside the code, is no longer the NOP supplied. *)
Lemma patch_overwrites_code :
  code_length (nops 2048) <= rom_size rainbows /\
  2045 < code_length (nops 2048) /\
  stitch (nops 2048) !! 2045%nat = Some 0xEA /\
  exists image,
    rom_build rainbows (nops 2048) = Ok image /\
    image !! 2045%nat = Some 0xF8 /\
    take (Z.to_nat (code_length (nops 2048))) image <> stitch (nops 2048).
Proof.
  split; [vm_compute; discriminate|].
  split; [vm_compute; reflexivity|].
  split; [vm_compute; reflexivity|].
  eexists. split; [vm_compute; reflexivity|].
  split; [vm_compute; reflexivity|].
  intros H. apply (f_equal (fun l => l !! 2045%nat)) in H.
  vm_compute in H. discriminate.
Qed.

(** ** Code larger than the ROM *)

(** C2, amended: the script has no check of the code length against
    [rom_size].  When the stitched chunks are longer than [rom_size] (and
    [5 <= rom_size <= 0x10000]) nothing is raised and no filler is added:
    the build returns a buffer of the stitched length, longer than
    [rom_size], which is the stitched code with the bytes at
    [rom_size - 5] and [rom_size - 3] overwritten by the reset vector. *)
Theorem oversize_not_detected (c : config) (chunks : list (list Z)) :
  rom_size c < code_length chunks ->
  5 <= rom_size c <= 0x10000 ->
  exists image,
    rom_build c chunks = Ok image /\
    len image = code_length chunks /\
    rom_size c < len image /\
    padded c chunks = Ok (stitch chunks) /\
    image = <[Z.to_nat (rom_size c - 3) := msb (reset_vector c)]>
              (<[Z.to_nat (rom_size c - 5) := lsb (reset_vector c)]>
                 (stitch chunks)).
Proof.
  intros Hover Hsize.
  assert (unpatched c chunks = stitch chunks) as Hbase.
  { unfold unpatched, num_pad_bytes.
    replace (Z.to_nat (rom_size c - code_length chunks)) with O by lia.
    apply app_nil_r. }
  assert (rom_build c chunks =
            Ok (<[Z.to_nat (rom_size c - 3) := msb (reset_vector c)]>
                  (<[Z.to_nat (rom_size c - 5) := lsb (reset_vector c)]>
                     (stitch chunks)))) as Hbuild.
  { rewrite <- Hbase. apply rom_build_fits; [exact Hsize|].
    unfold num_pad_bytes. lia. }
  eexists. split; [exact Hbuild|].
  rewrite !len_insert. fold (code_length chunks).
  repeat split; try lia.
  apply padded_Ok. rewrite Hbase. split; [reflexivity|].
  unfold num_pad_bytes. lia.
Qed.

Lemma oversize_not_detected_witness :
  exists image,
    rom_build rainbows (nops 3000) = Ok image /\
    len image = code_length (nops 3000) /\
    rom_size rainbows < len image /\
    padded rainbows (nops 3000) = Ok (stitch (nops 3000)) /\
    image = <[Z.to_nat (rom_size rainbows - 3) := msb (reset_vector rainbows)]>
              (<[Z.to_nat (rom_size rainbows - 5) := lsb (reset_vector rainbows)]>
                 (stitch (nops 3000))).
Proof.
  apply (oversize_not_detected rainbows (nops 3000)).
  - vm_compute. reflexivity.
  - vm_compute. split; discriminate.
Defined.

(** C2 as stated fails: 3000 bytes of code do not fit a 2k ROM, yet the
    build raises nothing and returns a 3000-byte buffer, which the script
    then writes to the file. *)
Lemma oversize_build_succeeds :
  rom_size rainbows < code_length (nops 3000) /\
  exists image w,
    rom_build rainbows (nops 3000) = Ok image /\
    len image = 3000 /\
    build_and_output rainbows (nops 3000) fresh = Ok w /\
    files w !! "rainbows.bin" = Some image.
Proof.
  split; [vm_compute; reflexivity|].
  eexists _, _. split; [vm_compute; reflexivity|].
  split; [vm_compute; reflexivity|].
  split; [unfold build_and_output, mbind, result_bind, bind;
          replace (rom_build rainbows (nops 3000))
            with (Ok (get_or [] (rom_build rainbows (nops 3000))))
            by (vm_compute; reflexivity);
          reflexivity|].
  vm_compute. reflexivity.
Qed.

(** ** Splitting an address *)

(** C6: on every 16-bit address the helpers return [addr & 0xFF] and
    [addr >> 8], and nothing can go wrong with the results: both are bytes,
    so a bytearray built from them is accepted and holds the remainder and
    the quotient of [addr] by 256. *)
Theorem lsb_msb_total (addr : Z) :
  0 <= addr <= 0xFFFF ->
  lsb addr = Z.land addr 0xFF /\
  msb addr = Z.shiftr addr 8 /\
  bytearray [lsb addr; msb addr] = Ok [addr mod 256; addr / 256].
Proof.
  intros Haddr. split; [reflexivity|]. split; [reflexivity|].
  apply bytearray_Ok. rewrite lsb_mod, msb_div. split; [reflexivity|].
  rewrite <- lsb_mod, <- msb_div.
  apply Forall_cons. split; [apply is_byte_spec, is_byte_lsb|].
  apply Forall_cons. split; [apply is_byte_spec, is_byte_msb; exact Haddr|].
  apply Forall_nil_2.
Qed.

Lemma lsb_msb_total_witness :
  lsb 0xF812 = Z.land 0xF812 0xFF /\
  msb 0xF812 = Z.shiftr 0xF812 8 /\
  bytearray [lsb 0xF812; msb 0xF812] = Ok [0xF812 mod 256; 0xF812 / 256].
Proof. apply (lsb_msb_total 0xF812). lia. Defined.

(** C9: for every word [0 <= w <= 0xFFFF] the two halves recombine to [w],
    [msb w * 256 + lsb w = w], and both halves lie in [0, 255]. *)
Theorem lsb_msb_roundtrip (w : Z) :
  0 <= w <= 0xFFFF ->
  msb w * 256 + lsb w = w /\ 0 <= lsb w <= 255 /\ 0 <= msb w <= 255.
Proof.
  intros Hw. split; [|split].
  - rewrite msb_div, lsb_mod. pose proof (Z.div_mod w 256). lia.
  - apply is_byte_spec, is_byte_lsb.
  - apply is_byte_spec, is_byte_msb. exact Hw.
Qed.

Lemma lsb_msb_roundtrip_witness :
  msb 0xF800 * 256 + lsb 0xF800 = 0xF800 /\
  0 <= lsb 0xF800 <= 255 /\ 0 <= msb 0xF800 <= 255.
Proof. apply (lsb_msb_roundtrip 0xF800). lia. Defined.

(** ** The jump back to the top of the main loop *)

(** C1, amended: whenever the four chunks can be built, the overscan chunk
    ends in [JMP] followed by the low and the high byte of
    [looptop = 0xFFFF - rom_size + len(init_tia) + 5].  That is the reset
    vector plus the 14 bytes of the initialization chunk plus 4: the address
    of the byte at index 4 of the vertical blank chunk, where its first
    [STA VSYNC] (0x85, 0x00) sits.  For a 2k ROM it is
    [0xF7FF + 14 + 5 = 0xF812]. *)
Theorem looptop_address (c : config) (chunks : list (list Z)) :
  chunks_of c = Ok chunks ->
  exists init vb vz body,
    init_tia = Ok init /\
    chunks =
      [init; vb; vz;
       body ++ [0x4C; lsb (looptop c init); msb (looptop c init)]] /\
    len init = 14 /\
    looptop c init = 0xFFFF - rom_size c + len init + 5 /\
    looptop c init = reset_vector c + len init + 4 /\
    stitch chunks !! Z.to_nat (looptop c init - reset_vector c) = Some 0x85 /\
    stitch chunks !! Z.to_nat (looptop c init - reset_vector c + 1) = Some 0x00 /\
    (rom_size c = 2048 -> looptop c init = 0xF812).
Proof.
  intros H. unfold chunks_of in H.
  apply result_bind_Ok in H as (init & Hinit & H).
  apply result_bind_Ok in H as (vb & Hvb & H).
  apply result_bind_Ok in H as (vz & Hvz & H).
  apply result_bind_Ok in H as (os & Hos & [= <-]).
  apply bytearray_Ok in Hos as [-> _].
  pose proof Hinit as Hinit'.
  apply bytearray_Ok in Hinit' as [-> _].
  apply bytearray_Ok in Hvb as [-> _].
  apply bytearray_Ok in Hvz as [-> _].
  eexists _, _, _, (take 24 (get_or [] (overscan 0))).
  split; [exact Hinit|].
  split; [reflexivity|].
  split; [reflexivity|].
  split; [reflexivity|].
  split; [unfold looptop, reset_vector; lia|].
  assert (forall k, looptop c
            [0x78; 0xD8; 0xA2; 0xFF; 0x9A; 0xA9; 0x00; 0xE8; 0xA8;
             0x95; 0x00; 0xCA; 0xD0; 0xFB] - reset_vector c + k = 18 + k) as Hdisp.
  { intros k. unfold looptop, reset_vector, len. simpl length. lia. }
  split; [|split].
  - rewrite <- (Z.add_0_r (_ - _)), Hdisp. reflexivity.
  - rewrite Hdisp. reflexivity.
  - intros Hsize. unfold looptop, len. simpl length. lia.
Qed.

Lemma looptop_address_witness :
  exists init vb vz body,
    init_tia = Ok init /\
    get_or [] (chunks_of rainbows) =
      [init; vb; vz;
       body ++ [0x4C; lsb (looptop rainbows init); msb (looptop rainbows init)]] /\
    len init = 14 /\
    looptop rainbows init = 0xFFFF - rom_size rainbows + len init + 5 /\
    looptop rainbows init = reset_vector rainbows + len init + 4 /\
    stitch (get_or [] (chunks_of rainbows))
      !! Z.to_nat (looptop rainbows init - reset_vector rainbows) = Some 0x85 /\
    stitch (get_or [] (chunks_of rainbows))
      !! Z.to_nat (looptop rainbows init - reset_vector rainbows + 1) = Some 0x00 /\
    (rom_size rainbows = 2048 -> looptop rainbows init = 0xF812).
Proof.
  apply (looptop_address rainbows (get_or [] (chunks_of rainbows))).
  vm_compute. reflexivity.
Defined.

(** C1 as stated fails: for the 2k ROM and the 14-byte initialization chunk
    the address jumped to is [0xF812].  It is neither
    [0xFFFF - rom_size + 1 + 14 + 5] nor [0xF814], and the operand of the
    [JMP] at the end of the overscan chunk (image offsets 77 and 78) holds
    0x12 and 0xF8. *)
Lemma looptop_is_not_F814 :
  exists init image,
    init_tia = Ok init /\ len init = 14 /\ rom_size rainbows = 2048 /\
    looptop rainbows init = 0xF812 /\
    looptop rainbows init <> 0xFFFF - rom_size rainbows + 1 + len init + 5 /\
    looptop rainbows init <> 0xF801 + 14 + 5 /\
    looptop rainbows init <> 0xF814 /\
    rom rainbows = Ok image /\
    image !! 76%nat = Some 0x4C /\
    image !! 77%nat = Some 0x12 /\
    image !! 78%nat = Some 0xF8.
Proof.
  eexists _, _. split; [vm_compute; reflexivity|].
  repeat split; try (vm_compute; reflexivity); vm_compute; discriminate.
Qed.

(** ** The image of the shipped configuration *)

(** C5, amended: for [rom_size = 2048] and [pad_byte = 0] the four chunks
    have 14, 25, 13 and 27 bytes (79 in total); the image has 2048 bytes;
    bytes [0:79] are the stitched chunks; bytes [79:2043] are all 0x00; the
    reset vector is [0xFFFF - 2048 + 1 = 0xF800]; the byte at offset 2043 is
    0x00 and the byte at offset 2045 is 0xF8. *)
Theorem rainbows_image :
  exists init vb vz os image,
    chunks_of rainbows = Ok [init; vb; vz; os] /\
    len init = 14 /\ len vb = 25 /\ len vz = 13 /\ len os = 27 /\
    code_length [init; vb; vz; os] = 79 /\
    rom rainbows = Ok image /\
    len image = 2048 /\
    take 79 image = stitch [init; vb; vz; os] /\
    take (2043 - 79) (drop 79 image) = replicate (2043 - 79) 0x00 /\
    reset_vector rainbows = 0xF800 /\
    image !! 2043%nat = Some 0x00 /\
    image !! 2045%nat = Some 0xF8.
Proof.
  eexists _, _, _, _, _.
  split; [vm_compute; reflexivity|].
  do 5 (split; [vm_compute; reflexivity|]).
  split; [vm_compute; reflexivity|].
  repeat split; vm_compute; reflexivity.
Qed.

(** C5 as stated fails: the second, third and fourth chunk do not have 24,
    14 and 23 bytes, the code is not 75 bytes long, offset 76 of the image
    holds the [JMP] opcode rather than padding, the reset vector is not
    0xF801 and the byte at offset 2043 is not 0x01. *)
Lemma rainbows_image_not_as_specified :
  exists init vb vz os image,
    chunks_of rainbows = Ok [init; vb; vz; os] /\
    rom rainbows = Ok image /\
    len vb <> 24 /\ len vz <> 14 /\ len os <> 23 /\
    code_length [init; vb; vz; os] <> 75 /\
    image !! 76%nat <> Some 0x00 /\
    take (2043 - 75) (drop 75 image) <> replicate (2043 - 75) 0x00 /\
    reset_vector rainbows <> 0xF801 /\
    image !! 2043%nat <> Some 0x01.
Proof.
  eexists _, _, _, _, _.
  split; [vm_compute; reflexivity|].
  split; [vm_compute; reflexivity|].
  repeat split; vm_compute; discriminate.
Qed.

(** C10: with the shipped constants every value put into the image is a
    byte (the literals of the four chunks, both halves of [looptop], both
    halves of the reset vector, and [pad_byte]), so all four chunks and the
    filler are built without an exception; the code has 79 bytes, and the
    poked offsets 2043 and 2045 lie beyond it and inside the padded buffer
    of 2048 bytes, so both assignments succeed and leave the 79 bytes of
    code as they were stitched. *)
Theorem rainbows_build_safe :
  exists init vb vz os base poked image,
    init_tia = Ok init /\ vblank = Ok vb /\ viz_area = Ok vz /\
    overscan (looptop rainbows init) = Ok os /\
    Forall (fun v => 0 <= v <= 255) (stitch [init; vb; vz; os]) /\
    0 <= lsb (looptop rainbows init) <= 255 /\
    0 <= msb (looptop rainbows init) <= 255 /\
    0 <= lsb (reset_vector rainbows) <= 255 /\
    0 <= msb (reset_vector rainbows) <= 255 /\
    0 <= pad_byte rainbows <= 255 /\
    code_length [init; vb; vz; os] = 79 /\
    79 <= rom_size rainbows - 5 /\
    rom_size rainbows - 5 = 2043 /\
    rom_size rainbows - 3 < len base /\
    bytearray (list_mul [pad_byte rainbows]
                 (num_pad_bytes rainbows [init; vb; vz; os]))
      = Ok (replicate 1969 0) /\
    padded rainbows [init; vb; vz; os] = Ok base /\
    len base = 2048 /\
    setitem base (rom_size rainbows - 5) (lsb (reset_vector rainbows)) = Ok poked /\
    setitem poked (rom_size rainbows - 3) (msb (reset_vector rainbows)) = Ok image /\
    rom rainbows = Ok image /\
    take 79 image = stitch [init; vb; vz; os].
Proof.
  set (chunks := get_or [] (chunks_of rainbows)).
  set (base := get_or [] (padded rainbows chunks)).
  set (poked := get_or [] (setitem base (rom_size rainbows - 5)
                                   (lsb (reset_vector rainbows)))).
  exists (get_or [] init_tia), (get_or [] vblank), (get_or [] viz_area),
         (get_or [] (overscan (looptop rainbows (get_or [] init_tia)))),
         base, poked, (get_or [] (rom rainbows)).
  do 4 (split; [vm_compute; reflexivity|]).
  split.
  { assert (bytearray (stitch chunks) = Ok (stitch chunks)) as H
      by (vm_compute; reflexivity).
    apply bytearray_Ok in H as [_ H]. exact H. }
  do 5 (split; [vm_compute; split; discriminate|]).
  split; [vm_compute; reflexivity|].
  split; [vm_compute; discriminate|].
  repeat split; vm_compute; reflexivity.
Qed.

(** ** Running the script *)

Lemma files_report (c : config) (n : Z) (r : list Z) (w : world) :
  files (report c n r w) = files w.
Proof. reflexivity. Qed.



(** * Further properties *)

(** ** The address helpers on arbitrary integers *)

(** X1: on every integer, negative or wider than 16 bits, the two halves
    recombine to the word and [lsb] is a byte; [msb] is a byte exactly for
    16-bit words, so a bytearray holding both halves is rejected with
    [ValueError] exactly when the word is not a 16-bit address. *)
Theorem split_any_integer (word : Z) :
  msb word * 256 + lsb word = word /\
  0 <= lsb word <= 255 /\
  (0 <= msb word <= 255 <-> 0 <= word <= 0xFFFF) /\
  (bytearray [lsb word; msb word] = Raise ValueError <-> ~ 0 <= word <= 0xFFFF).
Proof.
  split; [rewrite msb_div, lsb_mod; pose proof (Z.div_mod word 256); lia|].
  split; [apply is_byte_spec, is_byte_lsb|].
  split; [rewrite <- is_byte_spec; apply is_byte_msb|].
  unfold bytearray. simpl. rewrite is_byte_lsb, andb_true_r. simpl.
  destruct (is_byte (msb word)) eqn:E.
  - apply is_byte_msb in E. split; [discriminate|]. intros H. contradiction.
  - split; [|reflexivity]. intros _ H. apply is_byte_msb in H. congruence.
Qed.

(** ** Every outcome of the build section *)




(** Where the two pokes are found in the image, with the indices resolved
    as Python resolves them. *)
Lemma rom_build_lookup_pokes (c : config) (chunks : list (list Z)) (image : list Z) :
  rom_build c chunks = Ok image ->
  let size := Z.max (code_length chunks) (rom_size c) in
  let j1 := norm_index size (rom_size c - 5) in
  let j2 := norm_index size (rom_size c - 3) in
  0 <= j1 < size /\ 0 <= j2 < size /\ j1 <> j2 /\
  0 <= reset_vector c <= 0xFFFF /\
  len image = size /\
  image !! Z.to_nat j1 = Some (lsb (reset_vector c)) /\
  image !! Z.to_nat j2 = Some (msb (reset_vector c)) /\
  forall i : Z, 0 <= i -> i <> j1 -> i <> j2 ->
    image !! Z.to_nat i = unpatched c chunks !! Z.to_nat i.
Proof.
  intros H. cbv zeta. pose proof (len_rom_build _ _ _ H) as Hlen.
  apply rom_build_Ok in H as (_ & Hrv & Hj1 & Hj2 & ->). cbv zeta in *.
  pose proof (poke_indices_apart c chunks) as Hne. cbv zeta in Hne.
  specialize (Hne (proj1 Hj1)).
  rewrite len_unpatched in *.
  set (size := Z.max (code_length chunks) (rom_size c)) in *.
  set (j1 := norm_index size (rom_size c - 5)) in *.
  set (j2 := norm_index size (rom_size c - 3)) in *.
  pose proof (len_unpatched c chunks) as Hbase. fold size in Hbase.
  unfold len in Hbase.
  repeat split; try lia.
  - rewrite list_lookup_insert_ne by lia.
    apply list_lookup_insert_eq. lia.
  - apply list_lookup_insert_eq. rewrite length_insert. lia.
  - intros i Hi H1 H2. rewrite !list_lookup_insert_ne by lia. reflexivity.
Qed.

(** X3: the pokes keep the buffer a bytearray: when the chunks hold bytes
    only, so does every image the build returns, and [bytearray] accepts
    it. *)
Theorem image_is_bytearray (c : config) (chunks : list (list Z)) (image : list Z) :
  Forall (fun v => 0 <= v <= 255) (stitch chunks) ->
  rom_build c chunks = Ok image ->
  Forall (fun v => 0 <= v <= 255) image /\ bytearray image = Ok image.
Proof.
  intros Hcode H.
  assert (Forall (fun v => 0 <= v <= 255) image) as Himage.
  { apply rom_build_Ok in H as (Hpad & Hrv & _ & _ & ->). cbv zeta.
    apply Forall_insert; [|apply is_byte_spec, is_byte_msb; exact Hrv].
    apply Forall_insert; [|apply is_byte_spec, is_byte_lsb].
    unfold unpatched. apply Forall_app. split; [exact Hcode|].
    destruct (Z.to_nat (num_pad_bytes c chunks)) as [|k] eqn:E; [constructor|].
    apply Forall_replicate. apply Hpad. lia. }
  split; [exact Himage|]. apply bytearray_Ok. auto.
Qed.

Lemma image_is_bytearray_witness :
  Forall (fun v => 0 <= v <= 255) (get_or [] (rom rainbows)) /\
  bytearray (get_or [] (rom rainbows)) = Ok (get_or [] (rom rainbows)).
Proof.
  apply (image_is_bytearray rainbows (get_or [] (chunks_of rainbows))).
  - apply (bool_decide_unpack _). vm_compute. exact I.
  - vm_compute. reflexivity.
Defined.

(** X4: the image is as long as the larger of the code and [rom_size]; it
    has [rom_size] bytes exactly when the code fits. *)
Theorem image_length (c : config) (chunks : list (list Z)) (image : list Z) :
  rom_build c chunks = Ok image ->
  len image = Z.max (code_length chunks) (rom_size c) /\
  (len image = rom_size c <-> code_length chunks <= rom_size c).
Proof.
  intros H. apply rom_build_lookup_pokes in H as (_ & _ & _ & _ & Hlen & _).
  cbv zeta in Hlen. split; [exact Hlen|]. lia.
Qed.

Lemma image_length_witness :
  len (get_or [] (rom_build rainbows (nops 3000)))
    = Z.max (code_length (nops 3000)) (rom_size rainbows) /\
  (len (get_or [] (rom_build rainbows (nops 3000))) = rom_size rainbows
   <-> code_length (nops 3000) <= rom_size rainbows).
Proof.
  apply (image_length rainbows (nops 3000)). vm_compute. reflexivity.
Defined.

(** X5: with fewer than five bytes of ROM the index [rom_size - 5] is
    negative and counts from the end of the buffer.  When such a build
    succeeds the low byte of the reset vector sits [5 - rom_size] bytes
    before the end of the image; the high byte sits [3 - rom_size] bytes
    before the end when [rom_size < 3] and at [rom_size - 3] otherwise. *)
Theorem small_rom_wraps (c : config) (chunks : list (list Z)) (image : list Z) :
  rom_size c < 5 ->
  rom_build c chunks = Ok image ->
  1 <= rom_size c /\
  5 - rom_size c <= len image /\
  image !! Z.to_nat (len image - (5 - rom_size c)) = Some (lsb (reset_vector c)) /\
  (rom_size c < 3 ->
     image !! Z.to_nat (len image - (3 - rom_size c)) = Some (msb (reset_vector c))) /\
  (3 <= rom_size c ->
     image !! Z.to_nat (rom_size c - 3) = Some (msb (reset_vector c))).
Proof.
  intros Hsmall H.
  apply rom_build_lookup_pokes in H
    as (Hj1 & Hj2 & _ & Hrv & Hlen & H1 & H2 & _).
  cbv zeta in *. rewrite Hlen.
  set (size := Z.max (code_length chunks) (rom_size c)) in *.
  unfold norm_index in *.
  replace (rom_size c - 5 <? 0) with true in * by (symmetry; apply Z.ltb_lt; lia).
  unfold reset_vector in Hrv.
  split; [lia|]. split; [lia|].
  split; [rewrite <- H1; f_equal; lia|].
  split; intros H3.
  - replace (rom_size c - 3 <? 0) with true in * by (symmetry; apply Z.ltb_lt; lia).
    rewrite <- H2. f_equal. lia.
  - replace (rom_size c - 3 <? 0) with false in * by (symmetry; apply Z.ltb_ge; lia).
    exact H2.
Qed.

Lemma small_rom_wraps_witness :
  1 <= rom_size (with_rom_size rainbows 4) /\
  5 - rom_size (with_rom_size rainbows 4)
    <= len (get_or [] (rom_build (with_rom_size rainbows 4) (nops 10))) /\
  get_or [] (rom_build (with_rom_size rainbows 4) (nops 10))
    !! Z.to_nat (len (get_or [] (rom_build (with_rom_size rainbows 4) (nops 10)))
                 - (5 - rom_size (with_rom_size rainbows 4)))
    = Some (lsb (reset_vector (with_rom_size rainbows 4))) /\
  (rom_size (with_rom_size rainbows 4) < 3 ->
     get_or [] (rom_build (with_rom_size rainbows 4) (nops 10))
       !! Z.to_nat (len (get_or [] (rom_build (with_rom_size rainbows 4) (nops 10)))
                    - (3 - rom_size (with_rom_size rainbows 4)))
       = Some (msb (reset_vector (with_rom_size rainbows 4)))) /\
  (3 <= rom_size (with_rom_size rainbows 4) ->
     get_or [] (rom_build (with_rom_size rainbows 4) (nops 10))
       !! Z.to_nat (rom_size (with_rom_size rainbows 4) - 3)
       = Some (msb (reset_vector (with_rom_size rainbows 4)))).
Proof.
  apply (small_rom_wraps (with_rom_size rainbows 4) (nops 10)).
  - vm_compute. reflexivity.
  - vm_compute. reflexivity.
Defined.

(** ** Where the chunks end up *)

Lemma stitch_app (pre post : list (list Z)) :
  stitch (pre ++ post) = stitch pre ++ stitch post.
Proof. unfold stitch. apply concat_app. Qed.

(** X6: a chunk starts in the image at the summed length of the chunks
    stitched before it.  When the code ends at or before [rom_size - 5], the
    bytes of each chunk are found there unchanged. *)
Theorem chunk_in_image (c : config) (pre : list (list Z)) (chunk : list Z)
    (post : list (list Z)) (image : list Z) :
  5 <= rom_size c ->
  code_length (pre ++ chunk :: post) <= rom_size c - 5 ->
  rom_build c (pre ++ chunk :: post) = Ok image ->
  code_length (pre ++ chunk :: post)
    = code_length pre + len chunk + code_length post /\
  forall i : Z, 0 <= i < len chunk ->
    image !! Z.to_nat (code_length pre + i) = chunk !! Z.to_nat i.
Proof.
  intros Hsize Hcode H.
  assert (stitch (pre ++ chunk :: post) = stitch pre ++ chunk ++ stitch post)
    as Hst by (rewrite stitch_app; reflexivity).
  assert (code_length (pre ++ chunk :: post)
          = code_length pre + len chunk + code_length post) as Hlen.
  { unfold code_length. rewrite Hst, !len_app. lia. }
  split; [exact Hlen|]. intros i Hi.
  pose proof (len_nonneg (stitch pre)) as Hpre. fold (code_length pre) in Hpre.
  pose proof (len_nonneg (stitch post)) as Hpost. fold (code_length post) in Hpost.
  apply rom_build_lookup_pokes in H as (_ & _ & _ & _ & _ & _ & _ & Hframe).
  cbv zeta in Hframe. unfold norm_index in Hframe.
  replace (rom_size c - 5 <? 0) with false in Hframe
    by (symmetry; apply Z.ltb_ge; lia).
  replace (rom_size c - 3 <? 0) with false in Hframe
    by (symmetry; apply Z.ltb_ge; lia).
  rewrite Hframe by lia.
  rewrite lookup_unpatched_code by lia.
  rewrite Hst. unfold code_length, len in *.
  rewrite lookup_app_r by lia. rewrite lookup_app_l by lia.
  f_equal. lia.
Qed.

Lemma chunk_in_image_witness :
  code_length (take 1 (get_or [] (chunks_of rainbows)) ++ get_or [] vblank
               :: drop 2 (get_or [] (chunks_of rainbows)))
    = code_length (take 1 (get_or [] (chunks_of rainbows)))
      + len (get_or [] vblank)
      + code_length (drop 2 (get_or [] (chunks_of rainbows))) /\
  forall i : Z, 0 <= i < len (get_or [] vblank) ->
    get_or [] (rom rainbows)
      !! Z.to_nat (code_length (take 1 (get_or [] (chunks_of rainbows))) + i)
    = get_or [] vblank !! Z.to_nat i.
Proof.
  apply (chunk_in_image rainbows (take 1 (get_or [] (chunks_of rainbows)))
           (get_or [] vblank) (drop 2 (get_or [] (chunks_of rainbows)))
           (get_or [] (rom rainbows))).
  - vm_compute. discriminate.
  - vm_compute. discriminate.
  - vm_compute. reflexivity.
Defined.

(** ** The fourth-highest byte *)

(** X7: the comment above the pokes names the 4th-highest and 3rd-highest
    bytes of the image; the pokes go to [rom_size - 5] and [rom_size - 3].
    The 4th-highest byte, [rom_size - 4], is never written: when the code
    ends before it, it holds [pad_byte].  The little-endian word at the
    4th- and 3rd-highest bytes is therefore the reset vector exactly when
    [pad_byte] equals the low byte of the reset vector, which for the valid
    ROM sizes means [pad_byte = 0]. *)
Theorem fourth_highest_byte_is_padding (c : config) (chunks : list (list Z))
    (image : list Z) :
  5 <= rom_size c ->
  code_length chunks <= rom_size c - 4 ->
  rom_build c chunks = Ok image ->
  image !! Z.to_nat (rom_size c - 4) = Some (pad_byte c) /\
  image !! Z.to_nat (rom_size c - 3) = Some (msb (reset_vector c)) /\
  word_at image (rom_size c - 4)
    = Some (msb (reset_vector c) * 256 + pad_byte c) /\
  (word_at image (rom_size c - 4) = Some (reset_vector c)
   <-> pad_byte c = lsb (reset_vector c)) /\
  (valid_rom_size (rom_size c) ->
   (word_at image (rom_size c - 4) = Some (reset_vector c) <-> pad_byte c = 0)).
Proof.
  intros Hsize Hcode H.
  apply rom_build_lookup_pokes in H as (_ & _ & _ & Hrv & _ & _ & H3 & Hframe).
  cbv zeta in *. unfold norm_index in *.
  replace (rom_size c - 5 <? 0) with false in * by (symmetry; apply Z.ltb_ge; lia).
  replace (rom_size c - 3 <? 0) with false in * by (symmetry; apply Z.ltb_ge; lia).
  assert (image !! Z.to_nat (rom_size c - 4) = Some (pad_byte c)) as H4.
  { rewrite Hframe by lia. apply lookup_unpatched_filler. lia. }
  assert (word_at image (rom_size c - 4)
          = Some (msb (reset_vector c) * 256 + pad_byte c)) as Hword.
  { unfold word_at. replace (rom_size c - 4 + 1) with (rom_size c - 3) by lia.
    rewrite H4, H3. reflexivity. }
  assert (msb (reset_vector c) * 256 + lsb (reset_vector c) = reset_vector c)
    as Hsplit.
  { rewrite msb_div, lsb_mod. pose proof (Z.div_mod (reset_vector c) 256). lia. }
  assert (word_at image (rom_size c - 4) = Some (reset_vector c)
          <-> pad_byte c = lsb (reset_vector c)) as Hiff.
  { rewrite Hword. split.
    - intros [= Heq]. lia.
    - intros ->. rewrite Hsplit. reflexivity. }
  repeat split; try assumption; try apply Hiff.
  - intros Hw. apply Hiff in Hw. rewrite Hw.
    destruct H as [E|E]; unfold reset_vector; rewrite E; reflexivity.
  - intros Hp. apply Hiff. rewrite Hp.
    destruct H as [E|E]; unfold reset_vector; rewrite E; reflexivity.
Qed.

Lemma fourth_highest_byte_is_padding_witness :
  get_or [] (rom rainbows) !! Z.to_nat (rom_size rainbows - 4)
    = Some (pad_byte rainbows) /\
  get_or [] (rom rainbows) !! Z.to_nat (rom_size rainbows - 3)
    = Some (msb (reset_vector rainbows)) /\
  word_at (get_or [] (rom rainbows)) (rom_size rainbows - 4)
    = Some (msb (reset_vector rainbows) * 256 + pad_byte rainbows) /\
  (word_at (get_or [] (rom rainbows)) (rom_size rainbows - 4)
     = Some (reset_vector rainbows)
   <-> pad_byte rainbows = lsb (reset_vector rainbows)) /\
  (valid_rom_size (rom_size rainbows) ->
   (word_at (get_or [] (rom rainbows)) (rom_size rainbows - 4)
      = Some (reset_vector rainbows)
    <-> pad_byte rainbows = 0)).
Proof.
  apply (fourth_highest_byte_is_padding rainbows (get_or [] (chunks_of rainbows))
           (get_or [] (rom rainbows))).
  - vm_compute. discriminate.
  - vm_compute. discriminate.
  - vm_compute. reflexivity.
Defined.

(** ** When the script runs through *)

Lemma bytearray_Raise (l : list Z) (e : exn) :
  bytearray l = Raise e -> e = ValueError /\ ~ Forall (fun v => 0 <= v <= 255) l.
Proof.
  intros H. split.
  - unfold bytearray in H. destruct (forallb is_byte l); congruence.
  - intros HF. assert (bytearray l = Ok l) as H' by (apply bytearray_Ok; auto).
    congruence.
Qed.

Lemma code_length_script_chunks (c : config) : code_length (script_chunks c) = 79.
Proof. reflexivity. Qed.

(** The overscan chunk can be built exactly when [looptop] is a 16-bit
    address. *)
Lemma overscan_Ok (looptop_ : Z) (chunk : list Z) :
  overscan looptop_ = Ok chunk <->
  0 <= looptop_ <= 0xFFFF /\
  chunk = take 25 (get_or [] (overscan 0)) ++ [lsb looptop_; msb looptop_].
Proof.
  unfold overscan at 1. rewrite bytearray_Ok. split.
  - intros [-> HF]. split; [|reflexivity].
    apply is_byte_msb, is_byte_spec.
    rewrite Forall_lookup in HF. apply (HF 26%nat). reflexivity.
  - intros [Hl ->]. split; [reflexivity|].
    change (Forall (fun v => 0 <= v <= 255)
              (take 25 (get_or [] (overscan 0)) ++ [lsb looptop_; msb looptop_])).
    apply Forall_app. split.
    + apply (bool_decide_unpack _). vm_compute. exact I.
    + apply Forall_cons. split; [apply is_byte_spec, is_byte_lsb|].
      apply Forall_cons. split; [apply is_byte_spec, is_byte_msb; exact Hl|].
      apply Forall_nil_2.
Qed.

Lemma chunks_of_Ok (c : config) (chunks : list (list Z)) :
  chunks_of c = Ok chunks <->
  19 <= rom_size c <= 0x10012 /\ chunks = script_chunks c.
Proof.
  unfold chunks_of.
  change init_tia with (Ok (A := list Z) (get_or [] init_tia)).
  change vblank with (Ok (A := list Z) (get_or [] vblank)).
  change viz_area with (Ok (A := list Z) (get_or [] viz_area)).
  unfold mbind at 1 2 3, result_bind at 1 2 3, bind at 1 2 3.
  rewrite result_bind_Ok. split.
  - intros (os & Hos & [= <-]). apply overscan_Ok in Hos as [Hl ->].
    split; [|reflexivity]. unfold looptop in Hl.
    change (len (get_or [] init_tia)) with 14 in Hl. lia.
  - intros [Hsize ->]. eexists. split; [|reflexivity].
    apply overscan_Ok. split; [|reflexivity]. unfold looptop.
    change (len (get_or [] init_tia)) with 14. lia.
Qed.

Lemma chunks_of_Raise (c : config) (e : exn) :
  chunks_of c = Raise e -> e = ValueError /\ ~ 19 <= rom_size c <= 0x10012.
Proof.
  intros H. split.
  - unfold chunks_of in H.
    change init_tia with (Ok (A := list Z) (get_or [] init_tia)) in H.
    change vblank with (Ok (A := list Z) (get_or [] vblank)) in H.
    change viz_area with (Ok (A := list Z) (get_or [] viz_area)) in H.
    unfold mbind, result_bind, bind in H.
    destruct (overscan (looptop c (get_or [] init_tia))) as [os|e'] eqn:E;
      [discriminate|].
    injection H as <-. unfold overscan in E.
    apply bytearray_Raise in E as [-> _]. reflexivity.
  - intros Hsize.
    assert (chunks_of c = Ok (script_chunks c)) as H'
      by (apply chunks_of_Ok; auto).
    congruence.
Qed.

(** X8: the chunks of the script can be built exactly when
    [19 <= rom_size <= 0x10012], that is when [looptop] is a 16-bit address;
    otherwise building the overscan chunk raises [ValueError], whatever
    [pad_byte] is.  The code is 79 bytes long for every ROM size. *)
Theorem chunks_of_outcome (c : config) :
  (forall chunks, chunks_of c = Ok chunks <->
     19 <= rom_size c <= 0x10012 /\ chunks = script_chunks c) /\
  (chunks_of c = Raise ValueError <-> ~ 19 <= rom_size c <= 0x10012) /\
  chunks_of c <> Raise IndexError /\
  (19 <= rom_size c <= 0x10012 <-> 0 <= looptop c (get_or [] init_tia) <= 0xFFFF) /\
  code_length (script_chunks c) = 79.
Proof.
  split; [intros chunks; apply chunks_of_Ok|].
  split; [|split; [|split]].
  - split; [intros H; apply chunks_of_Raise in H as [_ H]; exact H|].
    intros Hout. destruct (chunks_of c) as [chunks|e] eqn:E.
    + apply chunks_of_Ok in E as [H _]. contradiction.
    + apply chunks_of_Raise in E as [-> _]. reflexivity.
  - intros H. apply chunks_of_Raise in H as [H _]. discriminate.
  - unfold looptop. change (len (get_or [] init_tia)) with 14. lia.
  - reflexivity.
Qed.


(** ** The script on the valid ROM sizes *)




(** ** What a run leaves behind *)

(** X11: a run that succeeds touches one file only, the one named by
    [file_name]; every other file is as it was.  It prints six lines: an
    empty one, the file name in double quotes, the 79 bytes of code, the
    length of the image (the larger of 79 and [rom_size]), the reset vector
    in upper-case hexadecimal, and an empty line. *)
Theorem run_effects (c : config) (w w' : world) :
  cart_maker c w = Ok w' ->
  (forall name, name <> file_name c -> files w' !! name = files w !! name) /\
  stdout w' =
    stdout w ++
      [""; "File " +:+ String "034"%char (file_name c)
             +:+ String "034"%char " complete";
       "79 bytes of program code";
       str (Z.max 79 (rom_size c)) +:+ " total bytes on cartridge";
       "Reset vector: 0x" +:+ format_X (reset_vector c);
       ""].
Proof.
  intros H. unfold cart_maker in H.
  apply result_bind_Ok in H as (chunks & Hc & H).
  apply chunks_of_Ok in Hc as [_ ->].
  unfold build_and_output in H.
  apply result_bind_Ok in H as (image & Hb & [= <-]).
  apply len_rom_build in Hb. rewrite code_length_script_chunks in Hb.
  split.
  - intros name Hname. rewrite files_report. simpl.
    apply lookup_insert_ne. congruence.
  - rewrite code_length_script_chunks.
    unfold report, print, write_file. cbn [stdout].
    rewrite Hb, <- !app_assoc. reflexivity.
Qed.

Lemma run_effects_witness :
  (forall name, name <> file_name rainbows ->
     files (get_or fresh (cart_maker rainbows fresh)) !! name
       = files fresh !! name) /\
  stdout (get_or fresh (cart_maker rainbows fresh)) =
    stdout fresh ++
      [""; "File " +:+ String "034"%char (file_name rainbows)
             +:+ String "034"%char " complete";
       "79 bytes of program code";
       str (Z.max 79 (rom_size rainbows)) +:+ " total bytes on cartridge";
       "Reset vector: 0x" +:+ format_X (reset_vector rainbows);
       ""].
Proof.
  apply (run_effects rainbows fresh (get_or fresh (cart_maker rainbows fresh))).
  vm_compute. reflexivity.
Defined.

(** ** The branches inside the chunks *)

Lemma lookup_stitch_chunk (pre : list (list Z)) (chunk : list Z)
    (post : list (list Z)) (k : Z) (v : Z) :
  0 <= k -> chunk !! Z.to_nat k = Some v ->
  stitch (pre ++ chunk :: post) !! Z.to_nat (code_length pre + k) = Some v.
Proof.
  intros Hk Hv. pose proof (lookup_lt_Some _ _ _ Hv) as Hlt.
  rewrite stitch_app. change (stitch (chunk :: post)) with (chunk ++ stitch post).
  unfold code_length, len.
  rewrite lookup_app_r by lia. rewrite lookup_app_l by lia.
  rewrite <- Hv. f_equal. lia.
Qed.

Lemma branches_to_stitch (pre : list (list Z)) (chunk : list Z)
    (post : list (list Z)) (pos target opcode : Z) :
  0 <= pos -> 0 <= target ->
  branches_to chunk pos target opcode ->
  branches_to (stitch (pre ++ chunk :: post))
              (code_length pre + pos) (code_length pre + target) opcode.
Proof.
  intros Hpos Htarget (Hop & Hbr & Hto). repeat split.
  - apply lookup_stitch_chunk; assumption.
  - unfold branch_target in *.
    destruct (chunk !! Z.to_nat (pos + 1)) as [operand|] eqn:E; [|discriminate].
    replace (code_length pre + pos + 1) with (code_length pre + (pos + 1)) by lia.
    rewrite (lookup_stitch_chunk pre chunk post (pos + 1) operand) by (lia || exact E).
    injection Hbr as <-. f_equal. lia.
  - apply lookup_stitch_chunk; assumption.
Qed.

(** X12: each of the four [BNE] instructions goes where its comment says,
    wherever its chunk is stitched in.  The operand counts back from the
    byte after the branch: in [init_tia] from offset 12 to the [STA $00,X]
    at 9, in [vblank] from 21 to the [STA WSYNC] at 18, in [viz_area] from
    11 to the [STY COLUBK] at 4, and in [overscan] from 9 to the
    [STA WSYNC] at 6; all offsets shift by the length of the code stitched
    before the chunk. *)
Theorem branches_reach_their_targets (pre post : list (list Z))
    (looptop_ : Z) (overscan_ : list Z) :
  overscan looptop_ = Ok overscan_ ->
  branches_to (stitch (pre ++ get_or [] init_tia :: post))
              (code_length pre + 12) (code_length pre + 9) 0x95 /\
  branches_to (stitch (pre ++ get_or [] vblank :: post))
              (code_length pre + 21) (code_length pre + 18) 0x85 /\
  branches_to (stitch (pre ++ get_or [] viz_area :: post))
              (code_length pre + 11) (code_length pre + 4) 0x84 /\
  branches_to (stitch (pre ++ overscan_ :: post))
              (code_length pre + 9) (code_length pre + 6) 0x85.
Proof.
  intros Hos. apply overscan_Ok in Hos as [_ ->].
  split; [|split; [|split]];
    (apply branches_to_stitch; [lia|lia|repeat split; reflexivity]).
Qed.

Lemma branches_reach_their_targets_witness :
  branches_to (stitch ([] ++ get_or [] init_tia :: drop 1 (script_chunks rainbows)))
              (code_length [] + 12) (code_length [] + 9) 0x95 /\
  branches_to (stitch ([] ++ get_or [] vblank :: drop 1 (script_chunks rainbows)))
              (code_length [] + 21) (code_length [] + 18) 0x85 /\
  branches_to (stitch ([] ++ get_or [] viz_area :: drop 1 (script_chunks rainbows)))
              (code_length [] + 11) (code_length [] + 4) 0x84 /\
  branches_to (stitch ([] ++ get_or [] (overscan 0xF812)
                       :: drop 1 (script_chunks rainbows)))
              (code_length [] + 9) (code_length [] + 6) 0x85.
Proof.
  apply (branches_reach_their_targets [] (drop 1 (script_chunks rainbows)) 0xF812).
  vm_compute. reflexivity.
Defined.

(** ** The hexadecimal rendering in the report *)

Lemma hex_digit_value_digit (d : N) :
  (d < 16)%N -> hex_digit_value (hex_digit d) = Some d.
Proof.
  intros H. destruct d as [|p]; [reflexivity|].
  do 4 (destruct p as [p|p|]; try reflexivity); lia.
Qed.

Lemma hex_value_digit (n : N) (acc : string) (v : N) :
  hex_value (String (hex_digit (n mod 16)) acc) v
  = hex_value acc (v * 16 + n mod 16)%N.
Proof.
  simpl. rewrite hex_digit_value_digit; [reflexivity|].
  apply N.mod_lt. discriminate.
Qed.

Lemma hex_value_hex_go (fuel : nat) :
  forall (n : N) (acc : string),
    (n < 16 ^ N.of_nat (S fuel))%N ->
    hex_value (hex_go fuel n acc) 0 = hex_value acc n.
Proof.
  induction fuel as [|fuel IH]; intros n acc Hn.
  - change (16 ^ N.of_nat 1)%N with 16%N in Hn.
    cbn [hex_go]. rewrite hex_value_digit, N.mod_small by exact Hn. reflexivity.
  - cbn [hex_go]. destruct (n / 16 =? 0)%N eqn:E.
    + apply N.eqb_eq in E. apply N.div_small_iff in E; [|discriminate].
      rewrite hex_value_digit, N.mod_small by exact E. reflexivity.
    + rewrite IH.
      * rewrite hex_value_digit. f_equal.
        pose proof (N.div_mod n 16). lia.
      * apply N.Div0.div_lt_upper_bound.
        rewrite Nat2N.inj_succ, N.pow_succ_r' in Hn. exact Hn.
Qed.

Lemma size_nat_bound (n : N) : (n < 16 ^ N.of_nat (S (N.size_nat n)))%N.
Proof.
  assert (forall p, (N.pos p < 2 ^ N.of_nat (Pos.size_nat p))%N) as Hpos.
  { induction p as [p IH|p IH|]; cbn [Pos.size_nat];
      rewrite ?Nat2N.inj_succ, ?N.pow_succ_r'; lia. }
  assert (n < 2 ^ N.of_nat (N.size_nat n))%N as H2.
  { destruct n as [|p]; [reflexivity|apply Hpos]. }
  eapply N.lt_le_trans; [exact H2|].
  rewrite Nat2N.inj_succ, N.pow_succ_r'.
  assert (2 ^ N.of_nat (N.size_nat n) <= 16 ^ N.of_nat (N.size_nat n))%N
    by (apply N.pow_le_mono_l; lia).
  lia.
Qed.

(** X13: the hexadecimal digits printed for the reset vector read back as
    the number: for every integer, the digits printed for its absolute
    value are upper-case hexadecimal digits whose value is that absolute
    value, and a negative number is printed as a minus sign followed by
    those digits. *)
Theorem format_X_reads_back (n : Z) :
  hex_value (format_X (Z.abs n)) 0 = Some (Z.abs_N n) /\
  format_X n =
    if n <? 0 then String "-"%char (format_X (Z.abs n)) else format_X (Z.abs n).
Proof.
  assert (format_X (Z.abs n)
          = hex_go (N.size_nat (Z.abs_N n)) (Z.abs_N n) "") as Habs.
  { unfold format_X. cbv zeta.
    replace (Z.abs n <? 0) with false by (symmetry; apply Z.ltb_ge; lia).
    replace (Z.abs_N (Z.abs n)) with (Z.abs_N n) by lia. reflexivity. }
  split.
  - rewrite Habs, hex_value_hex_go by apply size_nat_bound. reflexivity.
  - rewrite Habs. unfold format_X. cbv zeta. destruct (n <? 0); reflexivity.
Qed.

(** ** Item assignment *)

(** X14: [b[i] = v] succeeds exactly when [v] is a byte and
    [-len(b) <= i < len(b)].  It keeps the length; the value is then read
    back under the index used and under its other spelling (counted from
    the other end); every other position reads as before. *)
Theorem setitem_getitem (b : list Z) (i v : Z) :
  ((exists b', setitem b i v = Ok b') <->
     0 <= v <= 255 /\ - len b <= i < len b) /\
  (forall b', setitem b i v = Ok b' ->
     len b' = len b /\
     getitem b' i = Ok v /\
     getitem b' (if i <? 0 then i + len b else i - len b) = Ok v /\
     (forall j, norm_index (len b) j <> norm_index (len b) i ->
        getitem b' j = getitem b j)).
Proof.
  pose proof (len_nonneg b) as Hnn. split.
  - split.
    + intros [b' H]. apply setitem_Ok in H as (Hv & Hi & _).
      split; [exact Hv|]. unfold norm_index in Hi.
      destruct (i <? 0) eqn:E; [apply Z.ltb_lt in E|apply Z.ltb_ge in E]; lia.
    + intros [Hv Hi]. eexists. apply setitem_Ok. split; [exact Hv|].
      split; [|reflexivity]. unfold norm_index.
      destruct (i <? 0) eqn:E; [apply Z.ltb_lt in E|apply Z.ltb_ge in E]; lia.
  - intros b' H. apply setitem_Ok in H as (Hv & Hi & ->).
    set (k := norm_index (len b) i) in *.
    assert (forall i', norm_index (len b) i' = k ->
              getitem (<[Z.to_nat k := v]> b) i' = Ok v) as Hread.
    { intros i' Hi'. apply getitem_Ok. rewrite len_insert, Hi'.
      split; [lia|]. apply list_lookup_insert_eq. unfold len in Hi. lia. }
    split; [apply len_insert|].
    split; [apply Hread; reflexivity|].
    split.
    + apply Hread. unfold k, norm_index.
      destruct (i <? 0) eqn:E; [apply Z.ltb_lt in E|apply Z.ltb_ge in E].
      * replace (i + len b <? 0) with false; [reflexivity|].
        symmetry. apply Z.ltb_ge. unfold k, norm_index in Hi.
        replace (i <? 0) with true in Hi by (symmetry; apply Z.ltb_lt; lia). lia.
      * unfold k, norm_index in Hi.
        replace (i <? 0) with false in Hi by (symmetry; apply Z.ltb_ge; lia).
        replace (i - len b <? 0) with true by (symmetry; apply Z.ltb_lt; lia).
        lia.
    + intros j Hj. unfold getitem. cbv zeta. rewrite len_insert.
      destruct ((norm_index (len b) j <? 0)
                || (len b <=? norm_index (len b) j)) eqn:E; [reflexivity|].
      apply orb_false_iff in E as [E1 E2].
      apply Z.ltb_ge in E1. apply Z.leb_gt in E2.
      rewrite list_lookup_insert_ne by lia. reflexivity.
Qed.
